(** * RadPatterns: moment tensors and far-field radiation coefficients

    A shallow embedding of [radpatterns.py] and the properties of its four
    functions: [fault_projected_moment_tensor], [create_moment_tensor],
    [calc_unit_vectors] and [calc_radiation_pattern].

    Two numeric models.  The program computes on float64 numbers.  In the
    main model a number is a real ([R]), [np.pi] is [PI], [np.sin]/[np.cos]
    are [sin]/[cos] and [x ** 0.5] is [Rpower x 0.5]: rounding, overflow,
    infinities and NaN are absent, and a statement over it is one of exact
    real arithmetic on the formulas of the code.  The one arithmetic
    failure Python signals on these inputs, [ZeroDivisionError] of [/] on a
    zero divisor, is modelled.  Module [Binary64] has the same four
    functions on IEEE 754 binary64 numbers; it shows where an identity of
    exact arithmetic is not one of the values the code returns. *)

From Stdlib Require Import Floats Reals Lra List String Bool.
Import ListNotations.

Local Open Scope string_scope.
Local Open Scope R_scope.

(** ** Outcomes of a call: a value or a raised exception *)

Inductive exn : Type :=
| ZeroDivisionError.

Inductive outcome (A : Type) : Type :=
| Returns (a : A)
| Raises (e : exn).

Arguments Returns {A} a.
Arguments Raises {A} e.

Definition bind {A B : Type} (m : outcome A) (k : A -> outcome B) : outcome B :=
  match m with
  | Returns a => k a
  | Raises e => Raises e
  end.

Notation "x <- m ;; k" := (bind m (fun x => k))
  (at level 61, m at next level, right associativity).

(** Python's true division [x / y] on Python numbers (the keyword defaults
    are Python floats): raises on a zero divisor.  (On a [numpy.float64]
    divisor NumPy gives an infinity and a warning instead; the arguments
    are Python numbers throughout.) *)
Definition truediv (x y : R) : outcome R :=
  if Req_dec_T y 0 then Raises ZeroDivisionError else Returns (x / y).

(** [x in [s1, ..., sn]] on strings. *)
Definition str_in (x : string) (l : list string) : bool :=
  existsb (String.eqb x) l.

(** ** Arrays of shape (3,) and (3,3) *)

Module Array.

(** The three valid positions along an axis of length 3. *)
Inductive ix : Type := i0 | i1 | i2.

Record vec : Type := mkVec { x0 : R; x1 : R; x2 : R }.

(** A (3,3) array, stored by rows. *)
Record mat : Type := mkMat { row0 : vec; row1 : vec; row2 : vec }.

Definition vget (v : vec) (i : ix) : R :=
  match i with i0 => x0 v | i1 => x1 v | i2 => x2 v end.

Definition vset (v : vec) (i : ix) (a : R) : vec :=
  match i with
  | i0 => mkVec a (x1 v) (x2 v)
  | i1 => mkVec (x0 v) a (x2 v)
  | i2 => mkVec (x0 v) (x1 v) a
  end.

Definition row (M : mat) (i : ix) : vec :=
  match i with i0 => row0 M | i1 => row1 M | i2 => row2 M end.

(** [M[i,j]] *)
Definition get (M : mat) (i j : ix) : R := vget (row M i) j.

(** [M[i,j] = a] *)
Definition set (M : mat) (i j : ix) (a : R) : mat :=
  match i with
  | i0 => mkMat (vset (row0 M) j a) (row1 M) (row2 M)
  | i1 => mkMat (row0 M) (vset (row1 M) j a) (row2 M)
  | i2 => mkMat (row0 M) (row1 M) (vset (row2 M) j a)
  end.

(** [np.zeros([3,3],dtype=float)] *)
Definition zeros : mat :=
  mkMat (mkVec 0 0 0) (mkVec 0 0 0) (mkVec 0 0 0).

Definition col (M : mat) (j : ix) : vec :=
  mkVec (get M i0 j) (get M i1 j) (get M i2 j).

(** [M.T] *)
Definition T (M : mat) : mat := mkMat (col M i0) (col M i1) (col M i2).

(** [np.dot(v,w)] on two vectors. *)
Definition dot (v w : vec) : R :=
  x0 v * x0 w + x1 v * x1 w + x2 v * x2 w.

(** [np.dot(M,v)]: matrix times vector. *)
Definition dot_mv (M : mat) (v : vec) : vec :=
  mkVec (dot (row0 M) v) (dot (row1 M) v) (dot (row2 M) v).

(** [np.tensordot(A,B,axes=[1,0])]: axis 1 of [A] contracted with axis 0
    of [B]. *)
Definition tensordot (A B : mat) : mat :=
  mkMat (mkVec (dot (row0 A) (col B i0)) (dot (row0 A) (col B i1)) (dot (row0 A) (col B i2)))
        (mkVec (dot (row1 A) (col B i0)) (dot (row1 A) (col B i1)) (dot (row1 A) (col B i2)))
        (mkVec (dot (row2 A) (col B i0)) (dot (row2 A) (col B i1)) (dot (row2 A) (col B i2))).

(** [a*v] and [v+w], elementwise. *)
Definition vscale (a : R) (v : vec) : vec :=
  mkVec (a * x0 v) (a * x1 v) (a * x2 v).

Definition vadd (v w : vec) : vec :=
  mkVec (x0 v + x0 w) (x1 v + x1 w) (x2 v + x2 w).

(** [a*M] and [M+N], elementwise. *)
Definition scale (a : R) (M : mat) : mat :=
  mkMat (vscale a (row0 M)) (vscale a (row1 M)) (vscale a (row2 M)).

Definition add (M N : mat) : mat :=
  mkMat (vadd (row0 M) (row0 N)) (vadd (row1 M) (row1 N)) (vadd (row2 M) (row2 N)).

(** Derived notions used in the statements. *)
Definition symmetric (M : mat) : Prop :=
  forall i j : ix, get M i j = get M j i.

Definition trace (M : mat) : R := get M i0 i0 + get M i1 i1 + get M i2 i2.


Definition diag (a b c : R) : mat :=
  mkMat (mkVec a 0 0) (mkVec 0 b 0) (mkVec 0 0 c).

End Array.

Import Array.

(** ** The program *)

(** Defaults of the keyword arguments of [fault_projected_moment_tensor]. *)
Definition default_rake : R := 0.
Definition default_poissons_ratio : R := 0.25.

Definition fault_projected_moment_tensor
    (slip_type : string) (rake poissons_ratio : R) : outcome mat :=
  (* ratio of Lame parameter to shear modulus *)
  lambda2shmod <- truediv (2 * poissons_ratio) (1 - 2 * poissons_ratio) ;;
  (* initialise as zeros *)
  let M := zeros in
  if str_in slip_type ["shear"] then
    (* slip in along-strike direction *)
    let slip_strike := cos (rake * PI / 180) in
    let M := set M i1 i2 slip_strike in
    let M := set M i2 i1 slip_strike in
    (* slip in down-dip direction *)
    let slip_downdip := - sin (rake * PI / 180) in
    let M := set M i0 i2 slip_downdip in
    let M := set M i2 i0 slip_downdip in
    Returns M
  else if str_in slip_type ["explosion"] then
    let M := set M i0 i0 (Rpower (2 / 3) 0.5) in
    let M := set M i1 i1 (Rpower (2 / 3) 0.5) in
    let M := set M i2 i2 (Rpower (2 / 3) 0.5) in
    Returns M
  else if str_in slip_type ["opening"] then
    let M := set M i0 i0 lambda2shmod in
    let M := set M i1 i1 lambda2shmod in
    let M := set M i2 i2 (lambda2shmod + 2) in
    Returns M
  else
    Returns M.

Definition create_moment_tensor
    (strike dip rake opening_angle : R) (coordinates : string)
    (poissons_ratio : R) : outcome mat :=
  (* start with slip in updip-along_strike-fault_perpendicular/up frame *)
  Mshear <- fault_projected_moment_tensor "shear" rake default_poissons_ratio ;;
  Mopen <- fault_projected_moment_tensor "opening" default_rake default_poissons_ratio ;;
  let fraction_shear := cos (opening_angle * PI / 180) in
  let fraction_opening := sin (opening_angle * PI / 180) in
  (* sum them *)
  let M := add (scale fraction_shear Mshear) (scale fraction_opening Mopen) in
  (* rotate to an ENZ grid *)
  if str_in coordinates ["xyz"; "XYZ"; "ENZ"; "enz"] then
    let dip := dip * PI / 180 in
    let strike := strike * PI / 180 in
    (* first project to move the dip to the right orientation *)
    let R := zeros in
    let R := set R i1 i1 1 in
    let R := set R i0 i0 (cos dip) in
    let R := set R i2 i0 (- sin dip) in
    let R := set R i0 i2 (sin dip) in
    let R := set R i2 i2 (cos dip) in
    let M := tensordot R (tensordot M (T R)) in
    (* now the vertical is set: rotate along-strike to the desired azimuth *)
    let R := zeros in
    let R := set R i2 i2 1 in
    let R := set R i0 i0 (cos strike) in
    let R := set R i0 i1 (sin strike) in
    let R := set R i1 i1 (cos strike) in
    let R := set R i1 i0 (- sin strike) in
    let M := tensordot R (tensordot M (T R)) in
    Returns M
  else
    Returns M.

Definition calc_unit_vectors (takeoff_angle azimuth : R) : vec * vec * vec :=
  (* convert to radians *)
  let theta := takeoff_angle * PI / 180 in
  let phi := azimuth * PI / 180 in
  (* in the R directions *)
  let R_vec := mkVec (sin theta * sin phi) (sin theta * cos phi) (- cos theta) in
  (* in the theta direction *)
  let theta_vec := mkVec (cos theta * cos phi) (cos theta * sin phi) (- sin theta) in
  let theta_vec := mkVec (cos theta * sin phi) (cos theta * cos phi) (sin theta) in
  (* in the phi direction *)
  let phi_vec := mkVec (- sin phi) (cos phi) 0 in
  let phi_vec := mkVec (cos phi) (- sin phi) 0 in
  (R_vec, theta_vec, phi_vec).

Definition calc_radiation_pattern (M : mat) (takeoff_angle azimuth : R)
    : R * R * R :=
  (* calculate the unit vectors *)
  let '(R_vec, theta_vec, phi_vec) := calc_unit_vectors takeoff_angle azimuth in
  (* SH *)
  let rd_sh := dot phi_vec (dot_mv M R_vec) in
  (* SV *)
  let rd_sv := dot theta_vec (dot_mv M R_vec) in
  (* P *)
  let rd_p := dot R_vec (dot_mv M R_vec) in
  (rd_p, rd_sh, rd_sv).

(** ** Definitions used in the statements

    The blend as the specification words it: the opening tensor is built
    with the caller's [poissons_ratio]. *)
Definition specified_blend (rake opening_angle poissons_ratio : R) : outcome mat :=
  Mshear <- fault_projected_moment_tensor "shear" rake default_poissons_ratio ;;
  Mopen <- fault_projected_moment_tensor "opening" default_rake poissons_ratio ;;
  Returns (add (scale (cos (opening_angle * PI / 180)) Mshear)
               (scale (sin (opening_angle * PI / 180)) Mopen)).

(** The two rotation matrices of [create_moment_tensor], as assembled there
    from [zeros]; [dip] and [strike] are in radians. *)
Definition dip_rotation (dip : R) : mat :=
  mkMat (mkVec (cos dip) 0 (sin dip))
        (mkVec 0 1 0)
        (mkVec (- sin dip) 0 (cos dip)).

Definition strike_rotation (strike : R) : mat :=
  mkMat (mkVec (cos strike) (sin strike) 0)
        (mkVec (- sin strike) (cos strike) 0)
        (mkVec 0 0 1).

(** [R . M . R^T] as the code computes it. *)
Definition rotate (R M : mat) : mat := tensordot R (tensordot M (T R)).

(** The closed forms of the three fault-local tensors. *)
Definition shear_tensor (rake : R) : mat :=
  mkMat (mkVec 0 0 (- sin (rake * PI / 180)))
        (mkVec 0 0 (cos (rake * PI / 180)))
        (mkVec (- sin (rake * PI / 180)) (cos (rake * PI / 180)) 0).

Definition lame_ratio (poissons_ratio : R) : R :=
  2 * poissons_ratio / (1 - 2 * poissons_ratio).

Definition geographic : list string := ["xyz"; "XYZ"; "ENZ"; "enz"].

(** The tensor [M] of [create_moment_tensor] before the rotation (lines
    74-81), in closed form. *)
Definition blend (rake opening_angle : R) : mat :=
  add (scale (cos (opening_angle * PI / 180)) (shear_tensor rake))
      (scale (sin (opening_angle * PI / 180))
             (diag (lame_ratio default_poissons_ratio)
                   (lame_ratio default_poissons_ratio)
                   (lame_ratio default_poissons_ratio + 2))).

(** Componentwise operations on a triple of coefficients. *)
Definition triple_scale (a : R) (t : R * R * R) : R * R * R :=
  let '(p, sh, sv) := t in (a * p, a * sh, a * sv).


(** ** The four functions on binary64 numbers

    The same code on the numbers it really computes with.  Arithmetic is
    IEEE 754 binary64 ([float]), one rounding per operation.  [np.sin],
    [np.cos] and [**] are not code of this program: their value is taken
    where the C standard fixes it (at zeros, infinities and NaN) and left
    unfixed elsewhere, where the last bits depend on the platform's
    library.  [np.dot] and [np.tensordot] compute every product and sum
    from left to right; the BLAS library NumPy calls may take another
    order, which shows in the last bits of a finite result. *)

Module Binary64.

Local Open Scope float_scope.

(** What a call gives: a value, an exception, or a value this model does
    not fix. *)
Inductive result (A : Type) : Type :=
| Value (a : A)
| Error (e : exn)
| Unfixed.

Arguments Value {A} a.
Arguments Error {A} e.
Arguments Unfixed {A}.

Definition rbind {A B : Type} (m : result A) (k : A -> result B) : result B :=
  match m with
  | Value a => k a
  | Error e => Error e
  | Unfixed => Unfixed
  end.

Notation "x <~ m ;; k" := (rbind m (fun x => k))
  (at level 61, m at next level, right associativity).

(** [np.pi], the binary64 number nearest to pi. *)
Definition np_pi : float := 0x1.921fb54442d18p+1.

(** [np.sin]: a zero gives itself, an infinity or a NaN gives NaN. *)
Definition np_sin (x : float) : result float :=
  if is_zero x then Value x
  else if is_finite x then Unfixed
  else Value nan.

(** [np.cos]: a zero gives 1, an infinity or a NaN gives NaN. *)
Definition np_cos (x : float) : result float :=
  if is_zero x then Value 1
  else if is_finite x then Unfixed
  else Value nan.

(** [x ** y] on Python floats, the library's [pow]: not fixed here. *)
Definition py_pow (x y : float) : result float := Unfixed.

(** [x / y] on Python floats: raises on a zero divisor. *)
Definition truediv (x y : float) : result float :=
  if is_zero y then Error ZeroDivisionError else Value (x / y).

Record fvec : Type := mkFvec { f0 : float; f1 : float; f2 : float }.

Record fmat : Type := mkFmat { frow0 : fvec; frow1 : fvec; frow2 : fvec }.

Definition fvget (v : fvec) (i : ix) : float :=
  match i with i0 => f0 v | i1 => f1 v | i2 => f2 v end.

Definition fvset (v : fvec) (i : ix) (a : float) : fvec :=
  match i with
  | i0 => mkFvec a (f1 v) (f2 v)
  | i1 => mkFvec (f0 v) a (f2 v)
  | i2 => mkFvec (f0 v) (f1 v) a
  end.

Definition frow (M : fmat) (i : ix) : fvec :=
  match i with i0 => frow0 M | i1 => frow1 M | i2 => frow2 M end.

(** [M[i,j]] *)
Definition fget (M : fmat) (i j : ix) : float := fvget (frow M i) j.

(** [M[i,j] = a] *)
Definition fset (M : fmat) (i j : ix) (a : float) : fmat :=
  match i with
  | i0 => mkFmat (fvset (frow0 M) j a) (frow1 M) (frow2 M)
  | i1 => mkFmat (frow0 M) (fvset (frow1 M) j a) (frow2 M)
  | i2 => mkFmat (frow0 M) (frow1 M) (fvset (frow2 M) j a)
  end.

(** [np.zeros([3,3],dtype=float)] *)
Definition fzeros : fmat :=
  mkFmat (mkFvec 0 0 0) (mkFvec 0 0 0) (mkFvec 0 0 0).

Definition fcol (M : fmat) (j : ix) : fvec :=
  mkFvec (fget M i0 j) (fget M i1 j) (fget M i2 j).

(** [M.T] *)
Definition fT (M : fmat) : fmat := mkFmat (fcol M i0) (fcol M i1) (fcol M i2).

(** [np.dot(v,w)] *)
Definition fdot (v w : fvec) : float :=
  f0 v * f0 w + f1 v * f1 w + f2 v * f2 w.

(** [np.dot(M,v)] *)
Definition fdot_mv (M : fmat) (v : fvec) : fvec :=
  mkFvec (fdot (frow0 M) v) (fdot (frow1 M) v) (fdot (frow2 M) v).

(** [np.tensordot(A,B,axes=[1,0])] *)
Definition ftensordot (A B : fmat) : fmat :=
  mkFmat (mkFvec (fdot (frow0 A) (fcol B i0)) (fdot (frow0 A) (fcol B i1)) (fdot (frow0 A) (fcol B i2)))
         (mkFvec (fdot (frow1 A) (fcol B i0)) (fdot (frow1 A) (fcol B i1)) (fdot (frow1 A) (fcol B i2)))
         (mkFvec (fdot (frow2 A) (fcol B i0)) (fdot (frow2 A) (fcol B i1)) (fdot (frow2 A) (fcol B i2))).

(** [a*M] and [M+N], elementwise. *)
Definition fvscale (a : float) (v : fvec) : fvec :=
  mkFvec (a * f0 v) (a * f1 v) (a * f2 v).

Definition fvadd (v w : fvec) : fvec :=
  mkFvec (f0 v + f0 w) (f1 v + f1 w) (f2 v + f2 w).

Definition fscale (a : float) (M : fmat) : fmat :=
  mkFmat (fvscale a (frow0 M)) (fvscale a (frow1 M)) (fvscale a (frow2 M)).

Definition fadd (M N : fmat) : fmat :=
  mkFmat (fvadd (frow0 M) (frow0 N)) (fvadd (frow1 M) (frow1 N))
         (fvadd (frow2 M) (frow2 N)).




Definition fdiag (a b c : float) : fmat :=
  mkFmat (mkFvec a 0 0) (mkFvec 0 b 0) (mkFvec 0 0 c).

Definition fault_projected_moment_tensor
    (slip_type : string) (rake poissons_ratio : float) : result fmat :=
  (* ratio of Lame parameter to shear modulus *)
  lambda2shmod <~ truediv (2 * poissons_ratio) (1 - 2 * poissons_ratio) ;;
  (* initialise as zeros *)
  let M := fzeros in
  if str_in slip_type ["shear"%string] then
    (* slip in along-strike direction *)
    slip_strike <~ np_cos (rake * np_pi / 180) ;;
    let M := fset M i1 i2 slip_strike in
    let M := fset M i2 i1 slip_strike in
    (* slip in down-dip direction *)
    sin_rake <~ np_sin (rake * np_pi / 180) ;;
    let slip_downdip := - sin_rake in
    let M := fset M i0 i2 slip_downdip in
    let M := fset M i2 i0 slip_downdip in
    Value M
  else if str_in slip_type ["explosion"%string] then
    r <~ py_pow (2 / 3) 0.5 ;;
    let M := fset M i0 i0 r in
    let M := fset M i1 i1 r in
    let M := fset M i2 i2 r in
    Value M
  else if str_in slip_type ["opening"%string] then
    let M := fset M i0 i0 lambda2shmod in
    let M := fset M i1 i1 lambda2shmod in
    let M := fset M i2 i2 (lambda2shmod + 2) in
    Value M
  else
    Value M.

Definition create_moment_tensor
    (strike dip rake opening_angle : float) (coordinates : string)
    (poissons_ratio : float) : result fmat :=
  Mshear <~ fault_projected_moment_tensor "shear" rake 0.25 ;;
  Mopen <~ fault_projected_moment_tensor "opening" 0 0.25 ;;
  fraction_shear <~ np_cos (opening_angle * np_pi / 180) ;;
  fraction_opening <~ np_sin (opening_angle * np_pi / 180) ;;
  (* sum them *)
  let M := fadd (fscale fraction_shear Mshear) (fscale fraction_opening Mopen) in
  (* rotate to an ENZ grid *)
  if str_in coordinates ["xyz"; "XYZ"; "ENZ"; "enz"]%string then
    let dip := dip * np_pi / 180 in
    let strike := strike * np_pi / 180 in
    cos_dip <~ np_cos dip ;;
    sin_dip <~ np_sin dip ;;
    let R := fzeros in
    let R := fset R i1 i1 1 in
    let R := fset R i0 i0 cos_dip in
    let R := fset R i2 i0 (- sin_dip) in
    let R := fset R i0 i2 sin_dip in
    let R := fset R i2 i2 cos_dip in
    let M := ftensordot R (ftensordot M (fT R)) in
    cos_strike <~ np_cos strike ;;
    sin_strike <~ np_sin strike ;;
    let R := fzeros in
    let R := fset R i2 i2 1 in
    let R := fset R i0 i0 cos_strike in
    let R := fset R i0 i1 sin_strike in
    let R := fset R i1 i1 cos_strike in
    let R := fset R i1 i0 (- sin_strike) in
    let M := ftensordot R (ftensordot M (fT R)) in
    Value M
  else
    Value M.

Definition calc_unit_vectors (takeoff_angle azimuth : float)
    : result (fvec * fvec * fvec) :=
  (* convert to radians *)
  let theta := takeoff_angle * np_pi / 180 in
  let phi := azimuth * np_pi / 180 in
  sin_theta <~ np_sin theta ;;
  cos_theta <~ np_cos theta ;;
  sin_phi <~ np_sin phi ;;
  cos_phi <~ np_cos phi ;;
  (* in the R directions *)
  let R_vec := mkFvec (sin_theta * sin_phi) (sin_theta * cos_phi) (- cos_theta) in
  (* in the theta direction *)
  let theta_vec := mkFvec (cos_theta * cos_phi) (cos_theta * sin_phi) (- sin_theta) in
  let theta_vec := mkFvec (cos_theta * sin_phi) (cos_theta * cos_phi) sin_theta in
  (* in the phi direction *)
  let phi_vec := mkFvec (- sin_phi) cos_phi 0 in
  let phi_vec := mkFvec cos_phi (- sin_phi) 0 in
  Value (R_vec, theta_vec, phi_vec).

Definition calc_radiation_pattern (M : fmat) (takeoff_angle azimuth : float)
    : result (float * float * float) :=
  basis <~ calc_unit_vectors takeoff_angle azimuth ;;
  let '(R_vec, theta_vec, phi_vec) := basis in
  (* SH *)
  let rd_sh := fdot phi_vec (fdot_mv M R_vec) in
  (* SV *)
  let rd_sv := fdot theta_vec (fdot_mv M R_vec) in
  (* P *)
  let rd_p := fdot R_vec (fdot_mv M R_vec) in
  Value (rd_p, rd_sh, rd_sv).


End Binary64.

(** ** Further notions used in the statements *)

(** The identity matrix. *)
Definition identity : mat := diag 1 1 1.

(** The sum of the squares of the nine entries (the squared Frobenius
    norm). *)
Definition sum_squares (M : mat) : R :=
  dot (row0 M) (row0 M) + dot (row1 M) (row1 M) + dot (row2 M) (row2 M).

(** The vector product. *)
Definition cross (v w : vec) : vec :=
  mkVec (x1 v * x2 w - x2 v * x1 w)
        (x2 v * x0 w - x0 v * x2 w)
        (x0 v * x1 w - x1 v * x0 w).

(** The rotation of [create_moment_tensor] for a coordinates value: both
    rotations for a geographic one, none otherwise; [strike] and [dip] in
    degrees. *)
Definition to_frame (strike dip : R) (coordinates : string) (M : mat) : mat :=
  if str_in coordinates geographic
  then rotate (strike_rotation (strike * PI / 180))
              (rotate (dip_rotation (dip * PI / 180)) M)
  else M.

(** The matrix [u v^T]. *)
Definition outer (u v : vec) : mat :=
  mkMat (vscale (x0 u) v) (vscale (x1 u) v) (vscale (x2 u) v).

(** A vector of the fault frame taken to the frame of a coordinates value,
    by the two matrices of [to_frame]. *)
Definition to_frame_vec (strike dip : R) (coordinates : string) (v : vec) : vec :=
  if str_in coordinates geographic
  then dot_mv (strike_rotation (strike * PI / 180))
              (dot_mv (dip_rotation (dip * PI / 180)) v)
  else v.

(** Unfolding of the array operations, and the nine entries of a tensor. *)
Ltac array_unfold :=
  cbv [rotate tensordot T col dot dot_mv get vget vset set row scale add
       vscale vadd trace diag zeros row0 row1 row2 x0 x1 x2
       dip_rotation strike_rotation shear_tensor] in *.

Ltac open_mat M :=
  let a := fresh "a" in let b := fresh "b" in let c := fresh "c" in
  destruct M as [[a b c] [? ? ?] [? ? ?]].

(** * Properties *)

(** ** Division and membership *)

Lemma truediv_nonzero (x y : R) : y <> 0 -> truediv x y = Returns (x / y).
Proof.
  intros Hy. unfold truediv.
  destruct (Req_dec_T y 0) as [E | _]; [contradiction | reflexivity].
Qed.

Lemma truediv_zero (x y : R) : y = 0 -> truediv x y = Raises ZeroDivisionError.
Proof.
  intros Hy. unfold truediv.
  destruct (Req_dec_T y 0) as [_ | N]; [reflexivity | contradiction].
Qed.

Lemma str_in_false (x : string) (l : list string) :
  ~ In x l -> str_in x l = false.
Proof.
  unfold str_in. induction l as [| y l IH]; intros Hn; simpl.
  - reflexivity.
  - rewrite IH by (intros Hl; apply Hn; now right).
    destruct (String.eqb_spec x y) as [E | _]; [| reflexivity].
    exfalso. apply Hn. now left.
Qed.

Lemma str_in_true (x : string) (l : list string) :
  In x l -> str_in x l = true.
Proof.
  unfold str_in. intros Hx. apply existsb_exists.
  exists x. split; [assumption | apply String.eqb_refl].
Qed.

Lemma default_divisor_nonzero : 1 - 2 * default_poissons_ratio <> 0.
Proof. unfold default_poissons_ratio. lra. Qed.

(** ** What each branch of [fault_projected_moment_tensor] returns *)

Section FaultTensor.

Variables rake nu : R.
Hypothesis divisor : 1 - 2 * nu <> 0.

Lemma fault_tensor_shear :
  fault_projected_moment_tensor "shear" rake nu = Returns (shear_tensor rake).
Proof.
  unfold fault_projected_moment_tensor.
  rewrite (truediv_nonzero _ _ divisor). reflexivity.
Qed.

Lemma fault_tensor_explosion :
  fault_projected_moment_tensor "explosion" rake nu
  = Returns (diag (Rpower (2 / 3) 0.5) (Rpower (2 / 3) 0.5) (Rpower (2 / 3) 0.5)).
Proof.
  unfold fault_projected_moment_tensor.
  rewrite (truediv_nonzero _ _ divisor). reflexivity.
Qed.

Lemma fault_tensor_opening :
  fault_projected_moment_tensor "opening" rake nu
  = Returns (diag (lame_ratio nu) (lame_ratio nu) (lame_ratio nu + 2)).
Proof.
  unfold fault_projected_moment_tensor.
  rewrite (truediv_nonzero _ _ divisor). reflexivity.
Qed.

Lemma fault_tensor_other (slip_type : string) :
  ~ In slip_type ["shear"; "opening"; "explosion"] ->
  fault_projected_moment_tensor slip_type rake nu = Returns zeros.
Proof.
  intros Hn. unfold fault_projected_moment_tensor.
  rewrite (truediv_nonzero _ _ divisor). unfold bind.
  assert (Hs : str_in slip_type ["shear"] = false)
    by (apply str_in_false; simpl in *; tauto).
  assert (He : str_in slip_type ["explosion"] = false)
    by (apply str_in_false; simpl in *; tauto).
  assert (Ho : str_in slip_type ["opening"] = false)
    by (apply str_in_false; simpl in *; tauto).
  rewrite Hs, He, Ho. reflexivity.
Qed.

End FaultTensor.

Lemma fault_tensor_raises (slip_type : string) (rake nu : R) :
  1 - 2 * nu = 0 ->
  fault_projected_moment_tensor slip_type rake nu = Raises ZeroDivisionError.
Proof.
  intros Hz. unfold fault_projected_moment_tensor.
  rewrite (truediv_zero _ _ Hz). reflexivity.
Qed.

Lemma sqrt_as_power (x : R) : 0 < x -> Rpower x 0.5 = sqrt x.
Proof.
  intros Hx. replace 0.5 with (/ 2) by lra. now apply Rpower_sqrt.
Qed.

(** ** The shape of [create_moment_tensor] *)

Lemma create_moment_tensor_unrotated
    (strike dip rake opening_angle : R) (coordinates : string) (nu : R) :
  ~ In coordinates geographic ->
  create_moment_tensor strike dip rake opening_angle coordinates nu
  = Returns (blend rake opening_angle).
Proof.
  intros Hn. unfold create_moment_tensor.
  rewrite (fault_tensor_shear _ _ default_divisor_nonzero).
  rewrite (fault_tensor_opening _ _ default_divisor_nonzero).
  unfold bind. fold geographic.
  rewrite (str_in_false _ _ Hn). reflexivity.
Qed.

Lemma create_moment_tensor_rotated
    (strike dip rake opening_angle : R) (coordinates : string) (nu : R) :
  In coordinates geographic ->
  create_moment_tensor strike dip rake opening_angle coordinates nu
  = Returns (rotate (strike_rotation (strike * PI / 180))
               (rotate (dip_rotation (dip * PI / 180))
                  (blend rake opening_angle))).
Proof.
  intros Hin. unfold create_moment_tensor.
  rewrite (fault_tensor_shear _ _ default_divisor_nonzero).
  rewrite (fault_tensor_opening _ _ default_divisor_nonzero).
  unfold bind. fold geographic.
  rewrite (str_in_true _ _ Hin). reflexivity.
Qed.

(** The argument [poissons_ratio] of [create_moment_tensor] is never read. *)
Lemma create_moment_tensor_poissons_ratio_unused
    (strike dip rake opening_angle : R) (coordinates : string) (nu nu' : R) :
  create_moment_tensor strike dip rake opening_angle coordinates nu
  = create_moment_tensor strike dip rake opening_angle coordinates nu'.
Proof. reflexivity. Qed.

Lemma in_geographic_dec (coordinates : string) :
  {In coordinates geographic} + {~ In coordinates geographic}.
Proof. apply in_dec, string_dec. Qed.

(** ** Symmetry and trace under [rotate] *)







Lemma trace_rotate_dip (d : R) (M : mat) :
  trace (rotate (dip_rotation d) M) = trace M.
Proof.
  pose proof (sin2_cos2 d) as H. unfold Rsqr in H.
  open_mat M. array_unfold.
  generalize dependent (sin d). generalize dependent (cos d). intros cd sd H.
  match goal with
  | |- _ = ?m00 + ?m11 + ?m22 =>
      transitivity ((sd * sd + cd * cd) * (m00 + m22) + m11);
      [ring | rewrite H; ring]
  end.
Qed.

Lemma trace_rotate_strike (s : R) (M : mat) :
  trace (rotate (strike_rotation s) M) = trace M.
Proof.
  pose proof (sin2_cos2 s) as H. unfold Rsqr in H.
  open_mat M. array_unfold.
  generalize dependent (sin s). generalize dependent (cos s). intros cs ss H.
  match goal with
  | |- _ = ?m00 + ?m11 + ?m22 =>
      transitivity ((ss * ss + cs * cs) * (m00 + m11) + m22);
      [ring | rewrite H; ring]
  end.
Qed.

Lemma fault_tensor_returns_symmetric (slip_type : string) (rake nu : R) :
  1 - 2 * nu <> 0 ->
  exists M, fault_projected_moment_tensor slip_type rake nu = Returns M
            /\ symmetric M.
Proof.
  intros Hd. unfold fault_projected_moment_tensor.
  rewrite (truediv_nonzero _ _ Hd). unfold bind.
  destruct (str_in slip_type ["shear"]);
    [| destruct (str_in slip_type ["explosion"]);
       [| destruct (str_in slip_type ["opening"])]];
    (eexists; split; [reflexivity |]); intros i j; destruct i, j; reflexivity.
Qed.

Lemma not_geographic_fault : ~ In "fault" geographic.
Proof. simpl. intros [H | [H | [H | [H | []]]]]; discriminate H. Qed.

Lemma right_angle : 90 * PI / 180 = PI / 2.
Proof. lra. Qed.

(** * The claims *)

(** C1 (does not hold of the code).  The claim: [create_moment_tensor]
    builds the opening tensor with the caller's [poissons_ratio].  The
    code calls [fault_projected_moment_tensor(slip_type='opening')] and so
    always takes the default 0.25.  At strike 0, dip 20, rake 90,
    opening_angle 90, coordinates 'fault' and poissons_ratio 0.1 the
    returned tensor has entry [0,0] equal to 1, where the blend of the
    claim has 0.25. *)
Theorem create_moment_tensor_opening_ratio_is_default :
  exists M M',
    create_moment_tensor 0 20 90 90 "fault" 0.1 = Returns M /\
    specified_blend 90 90 0.1 = Returns M' /\
    get M i0 i0 = 1 /\ get M' i0 i0 = 0.25 /\ M <> M'.
Proof.
  assert (Hd : 1 - 2 * 0.1 <> 0) by lra.
  exists (blend 90 90).
  eexists. split; [| split].
  - apply create_moment_tensor_unrotated, not_geographic_fault.
  - unfold specified_blend.
    rewrite (fault_tensor_shear _ _ default_divisor_nonzero).
    rewrite (fault_tensor_opening _ _ Hd). reflexivity.
  - assert (H1 : get (blend 90 90) i0 i0 = 1).
    { unfold blend, lame_ratio, default_poissons_ratio. array_unfold.
      rewrite right_angle, sin_PI2. lra. }
    assert (H2 : get (add (scale (cos (90 * PI / 180)) (shear_tensor 90))
                          (scale (sin (90 * PI / 180))
                                 (diag (lame_ratio 0.1) (lame_ratio 0.1)
                                       (lame_ratio 0.1 + 2)))) i0 i0 = 0.25).
    { unfold lame_ratio. array_unfold. rewrite right_angle, sin_PI2. lra. }
    split; [exact H1 | split; [exact H2 |]].
    intros E. rewrite <- E in H2. rewrite H1 in H2. lra.
Qed.

(** C2.  [calc_unit_vectors] returns, in this order,
    R_vec = (sin theta sin phi, sin theta cos phi, -cos theta),
    theta_vec = (cos theta sin phi, cos theta cos phi, sin theta) and
    phi_vec = (cos phi, -sin phi, 0), with theta and phi the takeoff angle
    and the azimuth in radians; the first assignments to theta_vec and
    phi_vec leave no trace in the result. *)
Theorem calc_unit_vectors_formulas (takeoff_angle azimuth : R) :
  let theta := takeoff_angle * PI / 180 in
  let phi := azimuth * PI / 180 in
  calc_unit_vectors takeoff_angle azimuth
  = (mkVec (sin theta * sin phi) (sin theta * cos phi) (- cos theta),
     mkVec (cos theta * sin phi) (cos theta * cos phi) (sin theta),
     mkVec (cos phi) (- sin phi) 0).
Proof. reflexivity. Qed.

(** C3.  [calc_radiation_pattern] returns (P, SH, SV) with
    P = R_vec . (M . R_vec), SH = phi_vec . (M . R_vec) and
    SV = theta_vec . (M . R_vec), the three vectors being those of
    [calc_unit_vectors] at the same takeoff angle and azimuth. *)
Theorem calc_radiation_pattern_projections (M : mat) (takeoff_angle azimuth : R) :
  let basis := calc_unit_vectors takeoff_angle azimuth in
  let R_vec := fst (fst basis) in
  let theta_vec := snd (fst basis) in
  let phi_vec := snd basis in
  calc_radiation_pattern M takeoff_angle azimuth
  = (dot R_vec (dot_mv M R_vec),
     dot phi_vec (dot_mv M R_vec),
     dot theta_vec (dot_mv M R_vec)).
Proof. reflexivity. Qed.

(** C4.  [fault_projected_moment_tensor] returns: for 'shear' the tensor
    with M[0,2] = M[2,0] = -sin(rake), M[1,2] = M[2,1] = cos(rake) and
    zero elsewhere; for 'opening' the diagonal tensor (l, l, l+2) with
    l = 2 nu / (1 - 2 nu); for 'explosion' the diagonal tensor with
    sqrt(2/3) three times.  The divisor 1 - 2 nu is not zero (it is not
    for nu in (0, 0.5)). *)
Theorem fault_projected_moment_tensor_entries (rake poissons_ratio : R) :
  1 - 2 * poissons_ratio <> 0 ->
  fault_projected_moment_tensor "shear" rake poissons_ratio
  = Returns (mkMat (mkVec 0 0 (- sin (rake * PI / 180)))
                   (mkVec 0 0 (cos (rake * PI / 180)))
                   (mkVec (- sin (rake * PI / 180)) (cos (rake * PI / 180)) 0))
  /\ fault_projected_moment_tensor "opening" rake poissons_ratio
     = Returns (mkMat (mkVec (lame_ratio poissons_ratio) 0 0)
                      (mkVec 0 (lame_ratio poissons_ratio) 0)
                      (mkVec 0 0 (lame_ratio poissons_ratio + 2)))
  /\ fault_projected_moment_tensor "explosion" rake poissons_ratio
     = Returns (mkMat (mkVec (sqrt (2 / 3)) 0 0)
                      (mkVec 0 (sqrt (2 / 3)) 0)
                      (mkVec 0 0 (sqrt (2 / 3)))).
Proof.
  intros Hd. split; [| split].
  - apply (fault_tensor_shear _ _ Hd).
  - apply (fault_tensor_opening _ _ Hd).
  - rewrite (fault_tensor_explosion _ _ Hd).
    rewrite sqrt_as_power by lra. reflexivity.
Qed.

Lemma fault_projected_moment_tensor_entries_witness :
  1 - 2 * 0.25 <> 0 /\
  fault_projected_moment_tensor "opening" 30 0.25
  = Returns (mkMat (mkVec (lame_ratio 0.25) 0 0)
                   (mkVec 0 (lame_ratio 0.25) 0)
                   (mkVec 0 0 (lame_ratio 0.25 + 2))).
Proof.
  split; [lra |].
  apply (fault_projected_moment_tensor_entries 30 0.25). lra.
Defined.




(** C8.  A slip type other than 'shear', 'opening' and 'explosion' makes
    [fault_projected_moment_tensor] return the zero tensor (the divisor
    1 - 2 nu being nonzero), and a coordinates value other than 'xyz',
    'XYZ', 'ENZ' and 'enz' makes [create_moment_tensor] return the blend
    cos(opening_angle) Mshear + sin(opening_angle) Mopen unrotated, for
    every Poisson's ratio passed to it. *)
Theorem unrecognized_inputs_fall_back
    (slip_type coordinates : string)
    (strike dip rake opening_angle poissons_ratio : R) :
  1 - 2 * poissons_ratio <> 0 ->
  ~ In slip_type ["shear"; "opening"; "explosion"] ->
  ~ In coordinates ["xyz"; "XYZ"; "ENZ"; "enz"] ->
  fault_projected_moment_tensor slip_type rake poissons_ratio = Returns zeros
  /\ exists Mshear Mopen,
       fault_projected_moment_tensor "shear" rake default_poissons_ratio
       = Returns Mshear
       /\ fault_projected_moment_tensor "opening" default_rake
                                        default_poissons_ratio
          = Returns Mopen
       /\ forall nu,
            create_moment_tensor strike dip rake opening_angle coordinates nu
            = Returns (add (scale (cos (opening_angle * PI / 180)) Mshear)
                           (scale (sin (opening_angle * PI / 180)) Mopen)).
Proof.
  intros Hd Hs Hc. split.
  - apply (fault_tensor_other _ _ Hd _ Hs).
  - do 2 eexists. split; [| split].
    + apply (fault_tensor_shear _ _ default_divisor_nonzero).
    + apply (fault_tensor_opening _ _ default_divisor_nonzero).
    + intros nu. apply (create_moment_tensor_unrotated _ _ _ _ _ _ Hc).
Qed.

Lemma unrecognized_inputs_fall_back_witness :
  1 - 2 * 0.25 <> 0 /\
  ~ In "thrust" ["shear"; "opening"; "explosion"] /\
  ~ In "fault" ["xyz"; "XYZ"; "ENZ"; "enz"] /\
  fault_projected_moment_tensor "thrust" 90 0.25 = Returns zeros.
Proof.
  assert (Hd : 1 - 2 * 0.25 <> 0) by lra.
  assert (Hs : ~ In "thrust" ["shear"; "opening"; "explosion"])
    by (simpl; intros [H | [H | [H | []]]]; discriminate H).
  repeat split; try assumption; try exact not_geographic_fault.
  exact (proj1 (unrecognized_inputs_fall_back "thrust" "fault" 0 20 90 0 0.25
                  Hd Hs not_geographic_fault)).
Defined.

(** C9.  For slip type 'shear' or 'explosion' and any rake, two calls of
    [fault_projected_moment_tensor] whose Poisson's ratios both lie in
    (0, 0.5) return the same tensor. *)
Theorem poissons_ratio_only_in_opening
    (slip_type : string) (rake nu1 nu2 : R) :
  slip_type = "shear" \/ slip_type = "explosion" ->
  0 < nu1 < 0.5 -> 0 < nu2 < 0.5 ->
  exists M,
    fault_projected_moment_tensor slip_type rake nu1 = Returns M
    /\ fault_projected_moment_tensor slip_type rake nu2 = Returns M.
Proof.
  intros Hs H1 H2.
  assert (Hd1 : 1 - 2 * nu1 <> 0) by lra.
  assert (Hd2 : 1 - 2 * nu2 <> 0) by lra.
  destruct Hs as [-> | ->]; eexists; split.
  - apply (fault_tensor_shear _ _ Hd1).
  - apply (fault_tensor_shear _ _ Hd2).
  - apply (fault_tensor_explosion _ _ Hd1).
  - apply (fault_tensor_explosion _ _ Hd2).
Qed.

Lemma poissons_ratio_only_in_opening_witness :
  ("shear" = "shear" \/ "shear" = "explosion") /\
  0 < 0.1 < 0.5 /\ 0 < 0.4 < 0.5 /\
  exists M,
    fault_projected_moment_tensor "shear" 45 0.1 = Returns M
    /\ fault_projected_moment_tensor "shear" 45 0.4 = Returns M.
Proof.
  split; [left; reflexivity |].
  split; [lra |]. split; [lra |].
  apply (poissons_ratio_only_in_opening "shear" 45 0.1 0.4);
    [left; reflexivity | lra | lra].
Defined.




(** * Further properties of the four functions *)

(** ** Equality of arrays, entry by entry *)

Lemma mat_ext (M N : mat) :
  (forall i j, get M i j = get N i j) -> M = N.
Proof.
  intros H.
  pose proof (H i0 i0). pose proof (H i0 i1). pose proof (H i0 i2).
  pose proof (H i1 i0). pose proof (H i1 i1). pose proof (H i1 i2).
  pose proof (H i2 i0). pose proof (H i2 i1). pose proof (H i2 i2).
  open_mat M. open_mat N. array_unfold. subst. reflexivity.
Qed.

Lemma vec_ext (v w : vec) :
  (forall i, vget v i = vget w i) -> v = w.
Proof.
  intros H.
  pose proof (H i0). pose proof (H i1). pose proof (H i2).
  destruct v, w. array_unfold. subst. reflexivity.
Qed.

Ltac by_entries :=
  apply mat_ext; let i := fresh "i" in let j := fresh "j" in
  intros i j; destruct i, j; array_unfold.

(** ** Angles in degrees *)

Lemma zero_degrees : 0 * PI / 180 = 0.
Proof. lra. Qed.

Lemma sin_full_turn (x : R) : sin ((x + 360) * PI / 180) = sin (x * PI / 180).
Proof.
  replace ((x + 360) * PI / 180) with (x * PI / 180 + 2 * INR 1 * PI)
    by (simpl; lra).
  apply sin_period.
Qed.

Lemma cos_full_turn (x : R) : cos ((x + 360) * PI / 180) = cos (x * PI / 180).
Proof.
  replace ((x + 360) * PI / 180) with (x * PI / 180 + 2 * INR 1 * PI)
    by (simpl; lra).
  apply cos_period.
Qed.

Lemma sin_half_turn (x : R) : sin ((x + 180) * PI / 180) = - sin (x * PI / 180).
Proof.
  replace ((x + 180) * PI / 180) with (x * PI / 180 + PI) by lra.
  apply neg_sin.
Qed.

Lemma cos_half_turn (x : R) : cos ((x + 180) * PI / 180) = - cos (x * PI / 180).
Proof.
  replace ((x + 180) * PI / 180) with (x * PI / 180 + PI) by lra.
  apply neg_cos.
Qed.

Lemma circle (x : R) : sin x * sin x + cos x * cos x = 1.
Proof. exact (sin2_cos2 x). Qed.

(** ** [create_moment_tensor] as a blend followed by a change of frame *)

Lemma create_moment_tensor_to_frame
    (strike dip rake opening_angle : R) (coordinates : string) (nu : R) :
  create_moment_tensor strike dip rake opening_angle coordinates nu
  = Returns (to_frame strike dip coordinates (blend rake opening_angle)).
Proof.
  unfold to_frame.
  destruct (in_geographic_dec coordinates) as [Hin | Hn].
  - rewrite (str_in_true _ _ Hin). now apply create_moment_tensor_rotated.
  - rewrite (str_in_false _ _ Hn). now apply create_moment_tensor_unrotated.
Qed.

Lemma default_opening_tensor :
  fault_projected_moment_tensor "opening" default_rake default_poissons_ratio
  = Returns (diag 1 1 3).
Proof.
  rewrite (fault_tensor_opening _ _ default_divisor_nonzero).
  unfold lame_ratio, default_poissons_ratio. f_equal.
  by_entries; lra.
Qed.

Lemma rotate_scale (Q M : mat) (a : R) :
  rotate Q (scale a M) = scale a (rotate Q M).
Proof. open_mat Q. open_mat M. by_entries; ring. Qed.

Lemma rotate_add (Q M N : mat) :
  rotate Q (add M N) = add (rotate Q M) (rotate Q N).
Proof. open_mat Q. open_mat M. open_mat N. by_entries; ring. Qed.

Lemma to_frame_scale (strike dip : R) (coordinates : string) (a : R) (M : mat) :
  to_frame strike dip coordinates (scale a M)
  = scale a (to_frame strike dip coordinates M).
Proof.
  unfold to_frame. destruct (str_in coordinates geographic).
  - now rewrite !rotate_scale.
  - reflexivity.
Qed.

(** ** Errors and edge values *)

(** X1.  Called with Python numbers, [fault_projected_moment_tensor]
    raises [ZeroDivisionError] exactly when [poissons_ratio] is 0.5,
    whatever the slip type (recognized or not) and the rake: the ratio of
    line 142 is computed before the slip type is looked at.  (A
    [numpy.float64] ratio of 0.5 gives an infinity and a warning instead.) *)
Theorem fault_projected_moment_tensor_raises_iff
    (slip_type : string) (rake poissons_ratio : R) :
  fault_projected_moment_tensor slip_type rake poissons_ratio
  = Raises ZeroDivisionError
  <-> poissons_ratio = 0.5.
Proof.
  split.
  - intros Hr.
    destruct (Req_dec_T (1 - 2 * poissons_ratio) 0) as [Hz | Hd]; [lra |].
    destruct (fault_tensor_returns_symmetric slip_type rake _ Hd) as [M [HM _]].
    rewrite HM in Hr. discriminate Hr.
  - intros ->. apply fault_tensor_raises. lra.
Qed.

Lemma fault_projected_moment_tensor_raises_iff_witness :
  0.5 = 0.5 /\
  fault_projected_moment_tensor "shear" 90 0.5 = Raises ZeroDivisionError.
Proof.
  split; [reflexivity |].
  apply (proj2 (fault_projected_moment_tensor_raises_iff "shear" 90 0.5)).
  reflexivity.
Defined.

(** X2.  The ends of the opening angle, in either frame: at 0 the result
    is the shear tensor of [fault_projected_moment_tensor] (changed to the
    requested frame), at 90 it is the opening tensor for the default
    Poisson's ratio, at -90 the opposite of that opening tensor. *)
Theorem create_moment_tensor_opening_angle_ends
    (strike dip rake poissons_ratio : R) (coordinates : string) :
  exists Mshear Mopen,
    fault_projected_moment_tensor "shear" rake default_poissons_ratio
    = Returns Mshear
    /\ fault_projected_moment_tensor "opening" default_rake
                                     default_poissons_ratio
       = Returns Mopen
    /\ create_moment_tensor strike dip rake 0 coordinates poissons_ratio
       = Returns (to_frame strike dip coordinates Mshear)
    /\ create_moment_tensor strike dip rake 90 coordinates poissons_ratio
       = Returns (to_frame strike dip coordinates Mopen)
    /\ create_moment_tensor strike dip rake (-90) coordinates poissons_ratio
       = Returns (to_frame strike dip coordinates (scale (-1) Mopen)).
Proof.
  exists (shear_tensor rake), (diag 1 1 3).
  split; [apply (fault_tensor_shear _ _ default_divisor_nonzero) |].
  split; [apply default_opening_tensor |].
  rewrite !create_moment_tensor_to_frame.
  assert (Hl : lame_ratio default_poissons_ratio = 1)
    by (unfold lame_ratio, default_poissons_ratio; lra).
  repeat split; do 2 f_equal; unfold blend; rewrite Hl.
  - rewrite zero_degrees, cos_0, sin_0. by_entries; ring.
  - rewrite right_angle, cos_PI2, sin_PI2. by_entries; ring.
  - replace (-90 * PI / 180) with (- (PI / 2)) by lra.
    rewrite cos_neg, sin_neg, cos_PI2, sin_PI2. by_entries; ring.
Qed.


(** X4.  In exact real arithmetic a full turn changes nothing: adding 360
    degrees to the strike, the dip, the rake and the opening angle leaves
    the tensor of [create_moment_tensor] as it is.  (The binary64 tensors
    agree up to rounding only.) *)
Theorem create_moment_tensor_full_turn
    (strike dip rake opening_angle poissons_ratio : R) (coordinates : string) :
  create_moment_tensor (strike + 360) (dip + 360) (rake + 360)
                       (opening_angle + 360) coordinates poissons_ratio
  = create_moment_tensor strike dip rake opening_angle coordinates
                         poissons_ratio.
Proof.
  rewrite !create_moment_tensor_to_frame. f_equal.
  unfold to_frame, blend, shear_tensor, strike_rotation, dip_rotation.
  now rewrite !sin_full_turn, !cos_full_turn.
Qed.

(** X5.  In exact real arithmetic a full turn of the takeoff angle or of
    the azimuth leaves the three unit vectors, and with them the three
    radiation coefficients of any tensor, as they are.  (The binary64
    values agree up to rounding only.) *)
Theorem calc_radiation_pattern_full_turn
    (M : mat) (takeoff_angle azimuth : R) :
  calc_unit_vectors (takeoff_angle + 360) (azimuth + 360)
  = calc_unit_vectors takeoff_angle azimuth
  /\ calc_radiation_pattern M (takeoff_angle + 360) (azimuth + 360)
     = calc_radiation_pattern M takeoff_angle azimuth.
Proof.
  unfold calc_radiation_pattern, calc_unit_vectors.
  now rewrite !sin_full_turn, !cos_full_turn.
Qed.

(** ** Reversing the slip *)

Lemma calc_radiation_pattern_scale (a : R) (M : mat) (takeoff_angle azimuth : R) :
  calc_radiation_pattern (scale a M) takeoff_angle azimuth
  = triple_scale a (calc_radiation_pattern M takeoff_angle azimuth).
Proof.
  unfold calc_radiation_pattern, calc_unit_vectors, triple_scale.
  open_mat M. array_unfold.
  (apply f_equal2; [apply f_equal2 |]); ring.
Qed.

(** X6.  In exact real arithmetic, turning the rake by 180 degrees
    reverses the shear tensor: the call at [rake + 180] returns the
    opposite of the tensor returned at [rake] (and raises when that call
    raises).  (In binary64 sin(pi) is not 0, and the two agree up to
    rounding only.) *)
Theorem shear_tensor_reversed_by_half_turn (rake poissons_ratio : R) :
  fault_projected_moment_tensor "shear" (rake + 180) poissons_ratio
  = (M <- fault_projected_moment_tensor "shear" rake poissons_ratio ;;
     Returns (scale (-1) M)).
Proof.
  destruct (Req_dec_T (1 - 2 * poissons_ratio) 0) as [Hz | Hd].
  - now rewrite !(fault_tensor_raises _ _ _ Hz).
  - rewrite !(fault_tensor_shear _ _ Hd). unfold bind. f_equal.
    unfold shear_tensor. rewrite sin_half_turn, cos_half_turn.
    by_entries; ring.
Qed.

(** X7.  In exact real arithmetic, turning the opening angle by 180
    degrees reverses the source: the moment tensor changes sign, in either
    frame, and so do the three radiation coefficients in every direction.
    (The binary64 tensors are opposite up to rounding only.) *)
Theorem create_moment_tensor_reversed_by_half_turn
    (strike dip rake opening_angle poissons_ratio : R) (coordinates : string) :
  exists M,
    create_moment_tensor strike dip rake opening_angle coordinates
                         poissons_ratio = Returns M
    /\ create_moment_tensor strike dip rake (opening_angle + 180) coordinates
                            poissons_ratio = Returns (scale (-1) M)
    /\ forall takeoff_angle azimuth,
         calc_radiation_pattern (scale (-1) M) takeoff_angle azimuth
         = triple_scale (-1) (calc_radiation_pattern M takeoff_angle azimuth).
Proof.
  eexists. split; [apply create_moment_tensor_to_frame |]. split.
  - rewrite create_moment_tensor_to_frame, <- to_frame_scale. do 2 f_equal.
    unfold blend. rewrite sin_half_turn, cos_half_turn.
    by_entries; ring.
  - intros. apply calc_radiation_pattern_scale.
Qed.

(** ** Trace and size of the tensor *)

Lemma trace_to_frame (strike dip : R) (coordinates : string) (M : mat) :
  trace (to_frame strike dip coordinates M) = trace M.
Proof.
  unfold to_frame. destruct (str_in coordinates geographic); [| reflexivity].
  now rewrite trace_rotate_strike, trace_rotate_dip.
Qed.

Lemma sum_squares_rotate_dip (d : R) (M : mat) :
  sum_squares (rotate (dip_rotation d) M) = sum_squares M.
Proof.
  pose proof (circle d) as H.
  open_mat M. unfold sum_squares. array_unfold.
  generalize dependent (sin d). generalize dependent (cos d). intros cd sd H.
  match goal with
  | |- _ = ?m00 * _ + ?m01 * _ + ?m02 * _
           + (?m10 * _ + ?m11 * _ + ?m12 * _)
           + (?m20 * _ + ?m21 * _ + ?m22 * _) =>
      transitivity
        ((sd * sd + cd * cd) * (sd * sd + cd * cd)
           * (m00 * m00 + m02 * m02 + m20 * m20 + m22 * m22)
         + (sd * sd + cd * cd)
           * (m01 * m01 + m21 * m21 + m10 * m10 + m12 * m12)
         + m11 * m11);
      [ring | rewrite H; ring]
  end.
Qed.

Lemma sum_squares_rotate_strike (s : R) (M : mat) :
  sum_squares (rotate (strike_rotation s) M) = sum_squares M.
Proof.
  pose proof (circle s) as H.
  open_mat M. unfold sum_squares. array_unfold.
  generalize dependent (sin s). generalize dependent (cos s). intros cs ss H.
  match goal with
  | |- _ = ?m00 * _ + ?m01 * _ + ?m02 * _
           + (?m10 * _ + ?m11 * _ + ?m12 * _)
           + (?m20 * _ + ?m21 * _ + ?m22 * _) =>
      transitivity
        ((ss * ss + cs * cs) * (ss * ss + cs * cs)
           * (m00 * m00 + m01 * m01 + m10 * m10 + m11 * m11)
         + (ss * ss + cs * cs)
           * (m02 * m02 + m12 * m12 + m20 * m20 + m21 * m21)
         + m22 * m22);
      [ring | rewrite H; ring]
  end.
Qed.

Lemma sum_squares_to_frame (strike dip : R) (coordinates : string) (M : mat) :
  sum_squares (to_frame strike dip coordinates M) = sum_squares M.
Proof.
  unfold to_frame. destruct (str_in coordinates geographic); [| reflexivity].
  now rewrite sum_squares_rotate_strike, sum_squares_rotate_dip.
Qed.

(** X8.  In exact real arithmetic the trace of the tensor of
    [create_moment_tensor] is 5 sin(opening_angle), in either frame and for
    every strike, dip and rake; so a pure shear source (opening angle 0) is
    traceless.  (The binary64 traces agree with this up to rounding only.) *)
Theorem create_moment_tensor_trace_value
    (strike dip rake opening_angle poissons_ratio : R) (coordinates : string) :
  exists M,
    create_moment_tensor strike dip rake opening_angle coordinates
                         poissons_ratio = Returns M
    /\ trace M = 5 * sin (opening_angle * PI / 180).
Proof.
  eexists. split; [apply create_moment_tensor_to_frame |].
  rewrite trace_to_frame.
  unfold blend, lame_ratio, default_poissons_ratio. array_unfold. lra.
Qed.

(** X9.  In exact real arithmetic the sum of the squares of the entries
    of the tensor of [create_moment_tensor] is
    2 cos^2(opening_angle) + 11 sin^2(opening_angle): it depends on the
    opening angle alone, not on strike, dip, rake or the frame, and the
    blend is not normalised.  (Up to rounding only in binary64.) *)
Theorem create_moment_tensor_sum_squares
    (strike dip rake opening_angle poissons_ratio : R) (coordinates : string) :
  exists M,
    create_moment_tensor strike dip rake opening_angle coordinates
                         poissons_ratio = Returns M
    /\ sum_squares M
       = 2 * (cos (opening_angle * PI / 180) * cos (opening_angle * PI / 180))
         + 11 * (sin (opening_angle * PI / 180) * sin (opening_angle * PI / 180)).
Proof.
  eexists. split; [apply create_moment_tensor_to_frame |].
  rewrite sum_squares_to_frame.
  pose proof (circle (rake * PI / 180)) as H.
  unfold blend, lame_ratio, default_poissons_ratio, sum_squares. array_unfold.
  generalize dependent (sin (rake * PI / 180)).
  generalize dependent (cos (rake * PI / 180)).
  generalize (sin (opening_angle * PI / 180)).
  generalize (cos (opening_angle * PI / 180)).
  intros co so cr sr H.
  replace (2 * 0.25 / (1 - 2 * 0.25)) with 1 by lra.
  transitivity (2 * (co * co) * (sr * sr + cr * cr) + 11 * (so * so)).
  - ring.
  - rewrite H. ring.
Qed.

(** X10.  In exact real arithmetic the shear tensor, at every rake, and
    the explosion tensor have the same size: the squares of their entries
    sum to 2.  (Up to rounding only in binary64.) *)
Theorem shear_and_explosion_sum_squares (rake poissons_ratio : R) :
  1 - 2 * poissons_ratio <> 0 ->
  exists Mshear Mexplosion,
    fault_projected_moment_tensor "shear" rake poissons_ratio = Returns Mshear
    /\ fault_projected_moment_tensor "explosion" rake poissons_ratio
       = Returns Mexplosion
    /\ sum_squares Mshear = 2 /\ sum_squares Mexplosion = 2.
Proof.
  intros Hd. do 2 eexists.
  split; [apply (fault_tensor_shear _ _ Hd) |].
  split; [apply (fault_tensor_explosion _ _ Hd) |].
  split.
  - pose proof (circle (rake * PI / 180)) as H.
    unfold sum_squares. array_unfold.
    generalize dependent (sin (rake * PI / 180)).
    generalize dependent (cos (rake * PI / 180)). intros cr sr H.
    transitivity (2 * (sr * sr + cr * cr)); [ring | rewrite H; ring].
  - rewrite sqrt_as_power by lra.
    assert (Hs : sqrt (2 / 3) * sqrt (2 / 3) = 2 / 3) by (apply sqrt_sqrt; lra).
    unfold sum_squares. array_unfold.
    generalize dependent (sqrt (2 / 3)). intros r Hr.
    transitivity (3 * (r * r)); [ring | rewrite Hr; lra].
Qed.

Lemma shear_and_explosion_sum_squares_witness :
  1 - 2 * 0.25 <> 0 /\
  exists Mshear Mexplosion,
    fault_projected_moment_tensor "shear" 30 0.25 = Returns Mshear
    /\ fault_projected_moment_tensor "explosion" 30 0.25 = Returns Mexplosion
    /\ sum_squares Mshear = 2 /\ sum_squares Mexplosion = 2.
Proof.
  split; [lra |].
  apply (shear_and_explosion_sum_squares 30 0.25). lra.
Defined.


(** ** Products of matrices and the two rotations *)

Lemma dot_mv_tensordot (A B : mat) (v : vec) :
  dot_mv (tensordot A B) v = dot_mv A (dot_mv B v).
Proof.
  open_mat A. open_mat B. destruct v.
  apply vec_ext; intros i; destruct i; array_unfold; ring.
Qed.

Lemma dot_dot_mv (A : mat) (u w : vec) :
  dot (dot_mv A u) w = dot u (dot_mv (T A) w).
Proof. open_mat A. destruct u, w. array_unfold. ring. Qed.

Lemma dot_mv_identity (v : vec) : dot_mv identity v = v.
Proof.
  destruct v. apply vec_ext; intros i; destruct i;
    unfold identity; array_unfold; ring.
Qed.

Lemma rotate_tensordot (A B M : mat) :
  rotate (tensordot A B) M = rotate A (rotate B M).
Proof. open_mat A. open_mat B. open_mat M. by_entries; ring. Qed.

Lemma rotate_identity (M : mat) : rotate identity M = M.
Proof. open_mat M. unfold identity. by_entries; ring. Qed.

Lemma strike_rotation_plus (a b : R) :
  strike_rotation (a + b) = tensordot (strike_rotation b) (strike_rotation a).
Proof.
  unfold strike_rotation. rewrite sin_plus, cos_plus. by_entries; ring.
Qed.

Lemma strike_rotation_orthogonal (a : R) :
  tensordot (T (strike_rotation a)) (strike_rotation a) = identity.
Proof.
  pose proof (circle a) as H. unfold identity.
  by_entries; try ring; rewrite <- H; ring.
Qed.

Lemma strike_rotation_undone (a : R) :
  tensordot (strike_rotation (- a)) (strike_rotation a) = identity.
Proof.
  pose proof (circle a) as H. unfold identity, strike_rotation.
  rewrite sin_neg, cos_neg.
  by_entries; try ring; rewrite <- H; ring.
Qed.

Lemma dip_rotation_undone (a : R) :
  tensordot (dip_rotation (- a)) (dip_rotation a) = identity.
Proof.
  pose proof (circle a) as H. unfold identity, dip_rotation.
  rewrite sin_neg, cos_neg.
  by_entries; try ring; rewrite <- H; ring.
Qed.

(** A matrix [Q] with [Q^T Q = 1] applied to the source and to the
    direction leaves every projection as it was. *)
Lemma projection_rotated (Q M : mat) (u v : vec) :
  tensordot (T Q) Q = identity ->
  dot (dot_mv Q u) (dot_mv (rotate Q M) (dot_mv Q v)) = dot u (dot_mv M v).
Proof.
  intros HQ. unfold rotate.
  rewrite dot_dot_mv, !dot_mv_tensordot.
  rewrite <- (dot_mv_tensordot (T Q) Q v), HQ, dot_mv_identity.
  rewrite <- (dot_mv_tensordot (T Q) Q), HQ, dot_mv_identity.
  reflexivity.
Qed.

Lemma calc_unit_vectors_turned (takeoff_angle azimuth delta : R) :
  let Q := strike_rotation (delta * PI / 180) in
  let basis := calc_unit_vectors takeoff_angle azimuth in
  calc_unit_vectors takeoff_angle (azimuth + delta)
  = (dot_mv Q (fst (fst basis)), dot_mv Q (snd (fst basis)),
     dot_mv Q (snd basis)).
Proof.
  cbv zeta. unfold calc_unit_vectors. cbn [fst snd].
  replace ((azimuth + delta) * PI / 180)
    with (azimuth * PI / 180 + delta * PI / 180) by lra.
  rewrite sin_plus, cos_plus.
  (apply f_equal2; [apply f_equal2 |]);
    apply vec_ext; intros i; destruct i; array_unfold; ring.
Qed.

(** ** Changing the frame back, and turning source and receiver together *)

(** X11.  In exact real arithmetic the rotation to the ENZ grid is undone
    by the same two matrices at the opposite angles, in the opposite
    order: the strike rotation at [-strike] and then the dip rotation at
    [-dip] take the geographic tensor back to the tensor returned for a
    non-geographic coordinates value.  (Up to rounding only in binary64.) *)
Theorem create_moment_tensor_rotation_undone
    (strike dip rake opening_angle poissons_ratio : R) (coordinates : string) :
  ~ In coordinates ["xyz"; "XYZ"; "ENZ"; "enz"] ->
  exists Mgeo Mfault,
    create_moment_tensor strike dip rake opening_angle "xyz" poissons_ratio
    = Returns Mgeo
    /\ create_moment_tensor strike dip rake opening_angle coordinates
                            poissons_ratio
       = Returns Mfault
    /\ rotate (dip_rotation (- (dip * PI / 180)))
         (rotate (strike_rotation (- (strike * PI / 180))) Mgeo)
       = Mfault.
Proof.
  intros Hn. do 2 eexists. split; [| split].
  - apply create_moment_tensor_rotated. simpl. tauto.
  - apply (create_moment_tensor_unrotated _ _ _ _ _ _ Hn).
  - rewrite <- (rotate_tensordot (strike_rotation _)), strike_rotation_undone.
    rewrite rotate_identity.
    rewrite <- (rotate_tensordot (dip_rotation _)), dip_rotation_undone.
    apply rotate_identity.
Qed.

Lemma create_moment_tensor_rotation_undone_witness :
  ~ In "fault" ["xyz"; "XYZ"; "ENZ"; "enz"] /\
  exists Mgeo Mfault,
    create_moment_tensor 30 20 90 45 "xyz" 0.25 = Returns Mgeo
    /\ create_moment_tensor 30 20 90 45 "fault" 0.25 = Returns Mfault
    /\ rotate (dip_rotation (- (20 * PI / 180)))
         (rotate (strike_rotation (- (30 * PI / 180))) Mgeo)
       = Mfault.
Proof.
  split; [exact not_geographic_fault |].
  apply (create_moment_tensor_rotation_undone 30 20 90 45 0.25 "fault").
  exact not_geographic_fault.
Defined.

(** X12.  In exact real arithmetic only the azimuth relative to the
    strike matters: when the strike of the source and the azimuth of the
    ray are turned by the same angle, the three radiation coefficients of
    the geographic tensor stay the same.  (Up to rounding only in
    binary64.) *)
Theorem radiation_pattern_turns_with_strike
    (strike dip rake opening_angle poissons_ratio : R)
    (takeoff_angle azimuth delta : R) :
  exists M M',
    create_moment_tensor strike dip rake opening_angle "xyz" poissons_ratio
    = Returns M
    /\ create_moment_tensor (strike + delta) dip rake opening_angle "xyz"
                            poissons_ratio
       = Returns M'
    /\ calc_radiation_pattern M' takeoff_angle (azimuth + delta)
       = calc_radiation_pattern M takeoff_angle azimuth.
Proof.
  do 2 eexists. split; [| split].
  - apply create_moment_tensor_rotated. simpl. tauto.
  - apply create_moment_tensor_rotated. simpl. tauto.
  - replace ((strike + delta) * PI / 180)
      with (strike * PI / 180 + delta * PI / 180) by lra.
    rewrite strike_rotation_plus, rotate_tensordot.
    set (N := rotate (strike_rotation (strike * PI / 180)) _).
    unfold calc_radiation_pattern at 1.
    rewrite calc_unit_vectors_turned. cbv zeta.
    rewrite !projection_rotated by apply strike_rotation_orthogonal.
    reflexivity.
Qed.

(** ** The basis of [calc_unit_vectors] *)

Lemma dot_comm (u v : vec) : dot u v = dot v u.
Proof. destruct u, v. array_unfold. ring. Qed.

Lemma dot_vscale (a : R) (u v : vec) : dot u (vscale a v) = a * dot u v.
Proof. destruct u, v. array_unfold. ring. Qed.

Lemma dot_mv_isotropic (a : R) (v : vec) : dot_mv (diag a a a) v = vscale a v.
Proof.
  destruct v. apply vec_ext; intros i; destruct i; array_unfold; ring.
Qed.

Lemma basis_dots (takeoff_angle azimuth : R) :
  let basis := calc_unit_vectors takeoff_angle azimuth in
  let R_vec := fst (fst basis) in
  let theta_vec := snd (fst basis) in
  let phi_vec := snd basis in
  dot R_vec R_vec = 1 /\ dot phi_vec R_vec = 0 /\ dot theta_vec R_vec = 0.
Proof.
  cbv zeta. unfold calc_unit_vectors. cbn [fst snd]. array_unfold.
  pose proof (circle (takeoff_angle * PI / 180)) as Ht.
  pose proof (circle (azimuth * PI / 180)) as Hp.
  generalize dependent (sin (takeoff_angle * PI / 180)).
  generalize dependent (cos (takeoff_angle * PI / 180)).
  generalize dependent (sin (azimuth * PI / 180)).
  generalize dependent (cos (azimuth * PI / 180)).
  intros cp sp Hp ct st Ht.
  split; [| split].
  - transitivity (st * st * (sp * sp + cp * cp) + ct * ct); [ring |].
    rewrite Hp. lra.
  - ring.
  - transitivity (st * ct * (sp * sp + cp * cp) - ct * st); [ring |].
    rewrite Hp. ring.
Qed.

Lemma basis_complete (takeoff_angle azimuth : R) (d : vec) :
  let basis := calc_unit_vectors takeoff_angle azimuth in
  let R_vec := fst (fst basis) in
  let theta_vec := snd (fst basis) in
  let phi_vec := snd basis in
  dot R_vec d * dot R_vec d + dot phi_vec d * dot phi_vec d
  + dot theta_vec d * dot theta_vec d
  = dot d d.
Proof.
  cbv zeta. unfold calc_unit_vectors. cbn [fst snd].
  destruct d as [d0 d1 d2]. array_unfold.
  pose proof (circle (takeoff_angle * PI / 180)) as Ht.
  pose proof (circle (azimuth * PI / 180)) as Hp.
  generalize dependent (sin (takeoff_angle * PI / 180)).
  generalize dependent (cos (takeoff_angle * PI / 180)).
  generalize dependent (sin (azimuth * PI / 180)).
  generalize dependent (cos (azimuth * PI / 180)).
  intros cp sp Hp ct st Ht.
  transitivity
    (d0 * d0 * (sp * sp * (st * st + ct * ct) + cp * cp)
     + d1 * d1 * (cp * cp * (st * st + ct * ct) + sp * sp)
     + d2 * d2 * (st * st + ct * ct)
     + 2 * d0 * d1 * sp * cp * (st * st + ct * ct - 1)); [ring |].
  rewrite Ht.
  transitivity (d0 * d0 * (sp * sp + cp * cp) + d1 * d1 * (sp * sp + cp * cp)
                + d2 * d2); [ring |].
  rewrite Hp. ring.
Qed.

(** X13.  In exact real arithmetic the basis is right-handed in the order
    (R, theta, phi): the vector product of each two consecutive vectors is
    the third.  (Up to rounding only in binary64.) *)
Theorem calc_unit_vectors_right_handed (takeoff_angle azimuth : R) :
  let basis := calc_unit_vectors takeoff_angle azimuth in
  let R_vec := fst (fst basis) in
  let theta_vec := snd (fst basis) in
  let phi_vec := snd basis in
  cross R_vec theta_vec = phi_vec
  /\ cross theta_vec phi_vec = R_vec
  /\ cross phi_vec R_vec = theta_vec.
Proof.
  cbv zeta. unfold calc_unit_vectors, cross. cbn [fst snd x0 x1 x2].
  pose proof (circle (takeoff_angle * PI / 180)) as Ht.
  pose proof (circle (azimuth * PI / 180)) as Hp.
  generalize dependent (sin (takeoff_angle * PI / 180)).
  generalize dependent (cos (takeoff_angle * PI / 180)).
  generalize dependent (sin (azimuth * PI / 180)).
  generalize dependent (cos (azimuth * PI / 180)).
  intros cp sp Hp ct st Ht.
  split; [| split]; apply vec_ext; intros i; destruct i; cbn [vget x0 x1 x2].
  - transitivity (cp * (st * st + ct * ct)); [ring | rewrite Ht; ring].
  - transitivity (- sp * (st * st + ct * ct)); [ring | rewrite Ht; ring].
  - ring.
  - ring.
  - ring.
  - transitivity (- ct * (sp * sp + cp * cp)); [ring | rewrite Hp; ring].
  - ring.
  - ring.
  - transitivity (st * (sp * sp + cp * cp)); [ring | rewrite Hp; ring].
Qed.

(** X14.  In exact real arithmetic the opposite direction on the focal
    sphere (takeoff angle 180 - t, azimuth a + 180) has the opposite R and
    phi vectors and the same theta vector, so P and SH are the same there
    and SV changes sign, for every tensor.  (Up to rounding only in
    binary64.) *)
Theorem calc_radiation_pattern_antipode (M : mat) (takeoff_angle azimuth : R) :
  let basis := calc_unit_vectors takeoff_angle azimuth in
  let pattern := calc_radiation_pattern M takeoff_angle azimuth in
  calc_unit_vectors (180 - takeoff_angle) (azimuth + 180)
  = (vscale (-1) (fst (fst basis)), snd (fst basis), vscale (-1) (snd basis))
  /\ calc_radiation_pattern M (180 - takeoff_angle) (azimuth + 180)
     = (fst (fst pattern), snd (fst pattern), - snd pattern).
Proof.
  cbv zeta. unfold calc_radiation_pattern, calc_unit_vectors. cbn [fst snd].
  replace ((180 - takeoff_angle) * PI / 180)
    with (PI - takeoff_angle * PI / 180) by lra.
  rewrite sin_half_turn, cos_half_turn, sin_PI_x, Rtrigo_facts.cos_pi_minus.
  open_mat M.
  split; (apply f_equal2; [apply f_equal2 |]);
    try (apply vec_ext; intros i; destruct i); array_unfold; ring.
Qed.

(** ** Radiation of particular sources *)

(** X15.  In exact real arithmetic a source with tensor a times the
    identity, such as the explosion tensor of
    [fault_projected_moment_tensor] with a = sqrt(2/3), radiates P = a in
    every direction and no SH or SV.  (In binary64 SH and SV are of the
    size of a rounding error, not 0.) *)
Theorem isotropic_source_radiates_p_only
    (rake poissons_ratio a takeoff_angle azimuth : R) :
  calc_radiation_pattern (diag a a a) takeoff_angle azimuth = (a, 0, 0)
  /\ (1 - 2 * poissons_ratio <> 0 ->
      exists M,
        fault_projected_moment_tensor "explosion" rake poissons_ratio
        = Returns M
        /\ calc_radiation_pattern M takeoff_angle azimuth
           = (sqrt (2 / 3), 0, 0)).
Proof.
  assert (Hiso : forall b,
             calc_radiation_pattern (diag b b b) takeoff_angle azimuth
             = (b, 0, 0)).
  { intros b.
    destruct (basis_dots takeoff_angle azimuth) as [HR [HP HT]].
    unfold calc_radiation_pattern.
    destruct (calc_unit_vectors takeoff_angle azimuth) as [[R_vec th] ph].
    cbn [fst snd] in HR, HP, HT.
    rewrite dot_mv_isotropic, !dot_vscale, HR, HP, HT.
    (apply f_equal2; [apply f_equal2 |]); ring. }
  split; [apply Hiso |].
  intros Hd. eexists. split; [apply (fault_tensor_explosion _ _ Hd) |].
  rewrite sqrt_as_power by lra. apply Hiso.
Qed.

Lemma isotropic_source_radiates_p_only_witness :
  1 - 2 * 0.25 <> 0 /\
  exists M,
    fault_projected_moment_tensor "explosion" 0 0.25 = Returns M
    /\ calc_radiation_pattern M 60 135 = (sqrt (2 / 3), 0, 0).
Proof.
  assert (Hd : 1 - 2 * 0.25 <> 0) by lra.
  split; [exact Hd |].
  exact (proj2 (isotropic_source_radiates_p_only 0 0.25 1 60 135) Hd).
Defined.

(** X16.  In exact real arithmetic a vertical strike-slip fault (dip 90,
    rake 0, opening angle 0) has the classical pattern: with t the takeoff
    angle and d the azimuth minus the strike, both in radians,
    P = sin^2 t sin 2d, SH = sin t cos 2d and SV = sin t cos t sin 2d.
    (Up to rounding only in binary64.) *)
Theorem strike_slip_radiation_pattern
    (strike poissons_ratio takeoff_angle azimuth : R) :
  let t := takeoff_angle * PI / 180 in
  let d := azimuth * PI / 180 - strike * PI / 180 in
  exists M,
    create_moment_tensor strike 90 0 0 "xyz" poissons_ratio = Returns M
    /\ calc_radiation_pattern M takeoff_angle azimuth
       = (sin t * sin t * sin (2 * d),
          sin t * cos (2 * d),
          sin t * cos t * sin (2 * d)).
Proof.
  cbv zeta. eexists. split.
  - apply create_moment_tensor_rotated. simpl. tauto.
  - unfold calc_radiation_pattern, calc_unit_vectors, blend, shear_tensor,
      dip_rotation, strike_rotation.
    rewrite sin_2a, cos_2a, sin_minus, cos_minus.
    rewrite right_angle, zero_degrees, cos_PI2, sin_PI2, cos_0, sin_0.
    array_unfold.
    (apply f_equal2; [apply f_equal2 |]); ring.
Qed.

(** X17.  In exact real arithmetic the three coefficients are the whole
    of the vector M . R_vec: their squares sum to its squared length, for
    every tensor and direction.  (Up to rounding only in binary64.) *)
Theorem radiation_coefficients_complete (M : mat) (takeoff_angle azimuth : R) :
  let pattern := calc_radiation_pattern M takeoff_angle azimuth in
  let R_vec := fst (fst (calc_unit_vectors takeoff_angle azimuth)) in
  let d := dot_mv M R_vec in
  fst (fst pattern) * fst (fst pattern) + snd (fst pattern) * snd (fst pattern)
  + snd pattern * snd pattern
  = dot d d.
Proof.
  cbv zeta.
  rewrite <- (basis_complete takeoff_angle azimuth
                (dot_mv M (fst (fst (calc_unit_vectors takeoff_angle azimuth))))).
  reflexivity.
Qed.

(** ** Inputs of [fault_projected_moment_tensor] and of the frame selector *)

(** X18.  The four geographic spellings 'xyz', 'XYZ', 'ENZ' and 'enz' give
    the same tensor. *)
Theorem geographic_spellings_agree
    (strike dip rake opening_angle poissons_ratio : R) (coordinates : string) :
  In coordinates ["xyz"; "XYZ"; "ENZ"; "enz"] ->
  create_moment_tensor strike dip rake opening_angle coordinates poissons_ratio
  = create_moment_tensor strike dip rake opening_angle "xyz" poissons_ratio.
Proof.
  intros Hin.
  rewrite (create_moment_tensor_rotated _ _ _ _ _ _ Hin).
  symmetry. apply create_moment_tensor_rotated. simpl. tauto.
Qed.

Lemma geographic_spellings_agree_witness :
  In "ENZ" ["xyz"; "XYZ"; "ENZ"; "enz"] /\
  create_moment_tensor 30 20 90 45 "ENZ" 0.25
  = create_moment_tensor 30 20 90 45 "xyz" 0.25.
Proof.
  assert (Hin : In "ENZ" ["xyz"; "XYZ"; "ENZ"; "enz"]) by (simpl; tauto).
  split; [exact Hin |].
  exact (geographic_spellings_agree 30 20 90 45 0.25 "ENZ" Hin).
Defined.

(** X19.  In exact real arithmetic, for Poisson's ratios in (0, 0.5) the
    opening tensor has a positive diagonal (l, l, l + 2), and l grows
    strictly with the ratio.  (In binary64 two adjacent ratios can give the
    same l.) *)
Theorem opening_tensor_grows_with_poissons_ratio (rake nu1 nu2 : R) :
  0 < nu1 -> nu1 < nu2 -> nu2 < 0.5 ->
  exists l1 l2,
    fault_projected_moment_tensor "opening" rake nu1
    = Returns (diag l1 l1 (l1 + 2))
    /\ fault_projected_moment_tensor "opening" rake nu2
       = Returns (diag l2 l2 (l2 + 2))
    /\ 0 < l1 /\ l1 < l2.
Proof.
  intros H0 H12 H2.
  assert (Hd1 : 1 - 2 * nu1 <> 0) by lra.
  assert (Hd2 : 1 - 2 * nu2 <> 0) by lra.
  exists (lame_ratio nu1), (lame_ratio nu2).
  split; [apply (fault_tensor_opening _ _ Hd1) |].
  split; [apply (fault_tensor_opening _ _ Hd2) |].
  unfold lame_ratio. split.
  - apply Rdiv_lt_0_compat; lra.
  - assert (Hgap : 0 < 2 * nu2 / (1 - 2 * nu2) - 2 * nu1 / (1 - 2 * nu1)).
    { replace (2 * nu2 / (1 - 2 * nu2) - 2 * nu1 / (1 - 2 * nu1))
        with (2 * (nu2 - nu1) / ((1 - 2 * nu2) * (1 - 2 * nu1)))
        by (field; split; assumption).
      apply Rdiv_lt_0_compat; [lra |].
      apply Rmult_lt_0_compat; lra. }
    lra.
Qed.

Lemma opening_tensor_grows_with_poissons_ratio_witness :
  0 < 0.1 /\ 0.1 < 0.25 /\ 0.25 < 0.5 /\
  exists l1 l2,
    fault_projected_moment_tensor "opening" 0 0.1 = Returns (diag l1 l1 (l1 + 2))
    /\ fault_projected_moment_tensor "opening" 0 0.25
       = Returns (diag l2 l2 (l2 + 2))
    /\ 0 < l1 /\ l1 < l2.
Proof.
  split; [lra |]. split; [lra |]. split; [lra |].
  apply (opening_tensor_grows_with_poissons_ratio 0 0.1 0.25); lra.
Defined.


(** ** The source as a fault normal and a slip direction *)

Lemma dip_rotation_orthogonal (a : R) :
  tensordot (T (dip_rotation a)) (dip_rotation a) = identity.
Proof.
  pose proof (circle a) as H. unfold identity.
  by_entries; try ring; rewrite <- H; ring.
Qed.

Lemma dot_rotated (Q : mat) (u v : vec) :
  tensordot (T Q) Q = identity ->
  dot (dot_mv Q u) (dot_mv Q v) = dot u v.
Proof.
  intros HQ.
  now rewrite dot_dot_mv, <- dot_mv_tensordot, HQ, dot_mv_identity.
Qed.

Lemma dot_to_frame_vec (strike dip : R) (coordinates : string) (u v : vec) :
  dot (to_frame_vec strike dip coordinates u)
      (to_frame_vec strike dip coordinates v)
  = dot u v.
Proof.
  unfold to_frame_vec. destruct (str_in coordinates geographic); [| reflexivity].
  rewrite dot_rotated by apply strike_rotation_orthogonal.
  apply dot_rotated, dip_rotation_orthogonal.
Qed.

Lemma rotate_outer (Q : mat) (u v : vec) :
  rotate Q (outer u v) = outer (dot_mv Q u) (dot_mv Q v).
Proof.
  open_mat Q. destruct u, v. unfold outer. by_entries; ring.
Qed.

Lemma to_frame_outer (strike dip : R) (coordinates : string) (u v : vec) :
  to_frame strike dip coordinates (outer u v)
  = outer (to_frame_vec strike dip coordinates u)
          (to_frame_vec strike dip coordinates v).
Proof.
  unfold to_frame, to_frame_vec.
  destruct (str_in coordinates geographic); [| reflexivity].
  now rewrite !rotate_outer.
Qed.

Lemma to_frame_add (strike dip : R) (coordinates : string) (M N : mat) :
  to_frame strike dip coordinates (add M N)
  = add (to_frame strike dip coordinates M) (to_frame strike dip coordinates N).
Proof.
  unfold to_frame. destruct (str_in coordinates geographic); [| reflexivity].
  now rewrite !rotate_add.
Qed.

Lemma rotate_of_identity (Q : mat) : rotate Q identity = tensordot Q (T Q).
Proof. open_mat Q. unfold identity. by_entries; ring. Qed.

Lemma to_frame_identity (strike dip : R) (coordinates : string) :
  to_frame strike dip coordinates identity = identity.
Proof.
  unfold to_frame. destruct (str_in coordinates geographic); [| reflexivity].
  assert (Hd : rotate (dip_rotation (dip * PI / 180)) identity = identity).
  { rewrite rotate_of_identity.
    pose proof (circle (dip * PI / 180)) as H. unfold identity.
    by_entries; try ring; rewrite <- H; ring. }
  rewrite Hd, rotate_of_identity.
  pose proof (circle (strike * PI / 180)) as H. unfold identity.
  by_entries; try ring; rewrite <- H; ring.
Qed.

Lemma dot_outer (u a b v : vec) :
  dot u (dot_mv (outer a b) v) = dot u a * dot b v.
Proof. destruct u, a, b, v. unfold outer. array_unfold. ring. Qed.

Lemma dot_mv_add (M N : mat) (v : vec) :
  dot_mv (add M N) v = vadd (dot_mv M v) (dot_mv N v).
Proof.
  open_mat M. open_mat N. destruct v.
  apply vec_ext; intros i; destruct i; array_unfold; ring.
Qed.

Lemma dot_mv_scale (a : R) (M : mat) (v : vec) :
  dot_mv (scale a M) v = vscale a (dot_mv M v).
Proof.
  open_mat M. destruct v.
  apply vec_ext; intros i; destruct i; array_unfold; ring.
Qed.

Lemma dot_vadd (u v w : vec) : dot u (vadd v w) = dot u v + dot u w.
Proof. destruct u, v, w. array_unfold. ring. Qed.

Lemma blend_normal_slip (rake opening_angle : R) :
  let n := mkVec 0 0 1 in
  let s := mkVec (- sin (rake * PI / 180)) (cos (rake * PI / 180)) 0 in
  blend rake opening_angle
  = add (scale (cos (opening_angle * PI / 180)) (add (outer n s) (outer s n)))
        (scale (sin (opening_angle * PI / 180))
               (add identity (scale 2 (outer n n)))).
Proof.
  cbv zeta. unfold blend, lame_ratio, default_poissons_ratio, identity, outer.
  replace (2 * 0.25 / (1 - 2 * 0.25)) with 1 by lra.
  by_entries; ring.
Qed.

(** X20.  In exact real arithmetic the tensor of [create_moment_tensor] is
    that of a fault with unit normal n and unit slip direction s,
    orthogonal to each other:
    M = cos(opening_angle) (n s^T + s n^T) + sin(opening_angle) (1 + 2 n n^T),
    in either frame.  Its coefficients in the direction R_vec follow: with
    c and o the cosine and sine of the opening angle,
    P = 2 c (R.n)(R.s) + o (1 + 2 (R.n)^2), and for e = phi_vec (SH) or
    e = theta_vec (SV), c ((e.n)(R.s) + (e.s)(R.n)) + 2 o (e.n)(R.n).
    (Up to rounding only in binary64.) *)
Theorem create_moment_tensor_normal_and_slip
    (strike dip rake opening_angle poissons_ratio : R) (coordinates : string) :
  let co := cos (opening_angle * PI / 180) in
  let so := sin (opening_angle * PI / 180) in
  exists M n s,
    create_moment_tensor strike dip rake opening_angle coordinates
                         poissons_ratio = Returns M
    /\ dot n n = 1 /\ dot s s = 1 /\ dot n s = 0
    /\ M = add (scale co (add (outer n s) (outer s n)))
              (scale so (add identity (scale 2 (outer n n))))
    /\ forall takeoff_angle azimuth,
         let basis := calc_unit_vectors takeoff_angle azimuth in
         let R_vec := fst (fst basis) in
         let theta_vec := snd (fst basis) in
         let phi_vec := snd basis in
         calc_radiation_pattern M takeoff_angle azimuth
         = (2 * co * (dot R_vec n * dot R_vec s)
            + so * (1 + 2 * (dot R_vec n * dot R_vec n)),
            co * (dot phi_vec n * dot R_vec s + dot phi_vec s * dot R_vec n)
            + 2 * so * (dot phi_vec n * dot R_vec n),
            co * (dot theta_vec n * dot R_vec s + dot theta_vec s * dot R_vec n)
            + 2 * so * (dot theta_vec n * dot R_vec n)).
Proof.
  cbv zeta.
  set (n0 := mkVec 0 0 1).
  set (s0 := mkVec (- sin (rake * PI / 180)) (cos (rake * PI / 180)) 0).
  exists (to_frame strike dip coordinates (blend rake opening_angle)),
         (to_frame_vec strike dip coordinates n0),
         (to_frame_vec strike dip coordinates s0).
  split; [apply create_moment_tensor_to_frame |].
  rewrite !dot_to_frame_vec.
  split; [unfold n0; array_unfold; ring |].
  split; [unfold s0; array_unfold;
          rewrite <- (circle (rake * PI / 180)); ring |].
  split; [unfold n0, s0; array_unfold; ring |].
  assert (HM : to_frame strike dip coordinates (blend rake opening_angle)
               = add (scale (cos (opening_angle * PI / 180))
                        (add (outer (to_frame_vec strike dip coordinates n0)
                                    (to_frame_vec strike dip coordinates s0))
                             (outer (to_frame_vec strike dip coordinates s0)
                                    (to_frame_vec strike dip coordinates n0))))
                     (scale (sin (opening_angle * PI / 180))
                        (add identity
                           (scale 2
                              (outer (to_frame_vec strike dip coordinates n0)
                                     (to_frame_vec strike dip coordinates n0)))))).
  { rewrite blend_normal_slip. fold n0 s0.
    now rewrite !to_frame_add, !to_frame_scale, !to_frame_add, !to_frame_scale,
      !to_frame_outer, to_frame_identity. }
  split; [exact HM |].
  intros takeoff_angle azimuth. rewrite HM.
  destruct (basis_dots takeoff_angle azimuth) as [HR [HP HT]].
  unfold calc_radiation_pattern.
  destruct (calc_unit_vectors takeoff_angle azimuth) as [[R_vec th] ph].
  cbn [fst snd] in *.
  generalize (to_frame_vec strike dip coordinates n0)
             (to_frame_vec strike dip coordinates s0). intros n s.
  rewrite !dot_mv_add, !dot_mv_scale, !dot_mv_add, !dot_mv_scale,
    dot_mv_identity.
  rewrite !dot_vadd, !dot_vscale, !dot_vadd, !dot_vscale, !dot_outer,
    HR, HP, HT.
  rewrite (dot_comm n R_vec), (dot_comm s R_vec).
  (apply f_equal2; [apply f_equal2 |]); ring.
Qed.

(** X21.  In exact real arithmetic, straight down and straight up
    (takeoff angle 0 and 180) the P coefficient is the entry M[2,2],
    whatever the azimuth.  (In binary64 sin(pi) is not 0, and the value at
    180 is M[2,2] up to rounding only.) *)
Theorem vertical_ray_p_coefficient (M : mat) (azimuth : R) :
  fst (fst (calc_radiation_pattern M 0 azimuth)) = get M i2 i2
  /\ fst (fst (calc_radiation_pattern M 180 azimuth)) = get M i2 i2.
Proof.
  unfold calc_radiation_pattern, calc_unit_vectors. cbn [fst snd].
  replace (180 * PI / 180) with PI by lra.
  rewrite zero_degrees, sin_0, cos_0, sin_PI, cos_PI.
  open_mat M. array_unfold. split; ring.
Qed.

(** * Binary64: where the identities of exact arithmetic stop

    The angle [Binary64.huge] is finite, and its product with [np.pi]
    overflows to an infinity, of which [np.sin] and [np.cos] are NaN. *)




